(** * Quota-aware Bedrock endpoint load balancer: model and properties

    A shallow embedding of [lambda_function.py]: the DynamoDB quota table,
    the per-minute reset check, the selection of the endpoint with the most
    headroom, the usage update and the Lambda handler that composes them.

    Conventions.
    - Python integers are unbounded, so every number is a [Z].  Numbers read
      from DynamoDB through the boto3 resource API arrive as
      [decimal.Decimal]; on integral values its [+], [-] and comparisons
      agree with those of [int] (quotas are far below the 28 significant
      digits of the default Decimal context), but its [//] rounds toward
      zero where the one of [int] rounds down.  The model keeps the two
      divisions apart.
    - The table is keyed by [region]; a row is the record of its other
      attributes.  Rows are provisioned with [total_quota], [used_quota] and
      [request_count]; [last_reset] may be absent, which is what
      [endpoint.get('last_reset', 0)] caters for.
    - [time.time()], the Bedrock runtime and the inbound event are the
      environment: a clock indexed by the number of readings so far, a
      function giving the outcome of the downstream call, and the outcome of
      decoding the event body.  Calls made to the outside are logged in the
      world in the order in which they happen.
    - Failures of the table's own I/O are not modelled: [scan] and
      [update_item] do what DynamoDB does on the data they are given. *)

From Stdlib Require Import ZArith.
From stdpp Require Import base option list gmap strings fin_maps.

Local Open Scope Z_scope.
Local Set Warnings "-register-all".

(** ** Data model *)

(** The attributes of one row of the quota table (the key apart). *)
Record counters := Counters {
  total_quota : Z;
  used_quota : Z;
  last_reset : option Z;
  request_count : Z
}.

(** An item as returned by [table.scan()]: the dict the handler holds in
    memory and mutates. *)
Record endpoint := Endpoint {
  region : string;
  attrs : counters
}.

(** What the handler calls outside itself, as logged in the world. *)
Inductive call :=
  | Scan
  | UpdateItemReset (r : string) (now : Z)
  | UpdateItemQuota (r : string) (inc : Z)
  | BedrockClient (r : string)
  | InvokeModel (r : string).

Record world := World {
  table : gmap string counters;
  clock_reads : nat;
  calls : list call
}.

(** Python exceptions that the modelled code can raise. *)
Inductive exn :=
  | ValueError (msg : string)
  | TypeError (msg : string)
  | AttributeError (msg : string)
  | RecursionError (msg : string)
  | ClientError (msg : string).

(** Decoded JSON values (non-integral numbers are left out). *)
Inductive json :=
  | JNull
  | JBool (b : bool)
  | JInt (n : Z)
  | JStr (s : string)
  | JArr (items : list json)
  | JObj (fields : gmap string json).

(** What [json.loads(event["body"])] makes of the inbound event. *)
Inductive event :=
  | NotADict               (* event is a list, a string, ...: TypeError *)
  | NoBody                 (* event has no "body" key: KeyError *)
  | BodyNotText            (* body is None or another non-string: TypeError *)
  | BodyInvalidJson        (* text that json.loads refuses with
                              JSONDecodeError, a ValueError *)
  | BodyTooDeep            (* text nested beyond the interpreter's recursion
                              limit: RecursionError *)
  | BodyJson (v : json).

(** Outcome of the downstream model call for a region and a prompt. *)
Inductive downstream :=
  | ClientInitError (msg : string)
  | InvocationError (msg : string)
  | InvocationOk (result : json).

Inductive body :=
  | Text (s : string)
  | RegionResponse (r : string) (response : json).

(** The handler's result: a response dict, or an exception it lets escape. *)
Inductive outcome :=
  | Response (statusCode : Z) (b : body)
  | Uncaught (e : exn).

(** ** Reset policy *)

Definition windowSeconds : Z := 60.

(** [last_reset // 60] for [last_reset = endpoint.get('last_reset', 0)]:
    the default is the [int] 0, a stored value is a [Decimal]. *)
Definition last_reset_window (lr : option Z) : Z :=
  match lr with
  | None => 0 / windowSeconds
  | Some d => Z.quot d windowSeconds
  end.

(** [current_time // 60 > last_reset // 60] *)
Definition should_reset (current_time : Z) (lr : option Z) : bool :=
  current_time / windowSeconds >? last_reset_window lr.

(** [SET used_quota = :zero, last_reset = :now] *)
Definition reset_counters (now : Z) (c : counters) : counters :=
  {| total_quota := total_quota c;
     used_quota := 0;
     last_reset := Some now;
     request_count := request_count c |}.

(** [SET used_quota = used_quota + :inc, request_count = request_count + :one] *)
Definition bump_counters (inc : Z) (c : counters) : counters :=
  {| total_quota := total_quota c;
     used_quota := used_quota c + inc;
     last_reset := last_reset c;
     request_count := request_count c + 1 |}.

(** [endpoint['used_quota'] = 0] *)
Definition zero_used (e : endpoint) : endpoint :=
  {| region := region e;
     attrs := {| total_quota := total_quota (attrs e);
                 used_quota := 0;
                 last_reset := last_reset (attrs e);
                 request_count := request_count (attrs e) |} |}.

Definition log (c : call) (w : world) : world :=
  {| table := table w; clock_reads := clock_reads w; calls := calls w ++ [c] |}.

Definition set_table (t : gmap string counters) (w : world) : world :=
  {| table := t; clock_reads := clock_reads w; calls := calls w |}.

Definition tick (w : world) : world :=
  {| table := table w; clock_reads := S (clock_reads w); calls := calls w |}.

(** [table.scan()]: one item per row, in the table's own order. *)
Definition scan (t : gmap string counters) : list endpoint :=
  (λ kv, Endpoint kv.1 kv.2) <$> map_to_list t.

Definition get_available_endpoints (w : world) : list endpoint * world :=
  (scan (table w), log Scan w).

(** ** Selection *)

Definition headroom (x : endpoint) : Z :=
  total_quota (attrs x) - used_quota (attrs x).

(** Python's [max(iterable, key=...)]: the running best is replaced only by
    a strictly larger key, so the first maximal element wins. *)
Fixpoint max_by {A} (key : A → Z) (best : A) (rest : list A) : A :=
  match rest with
  | [] => best
  | x :: rest' => if key x >? key best then max_by key x rest' else max_by key best rest'
  end.

Definition select_best_endpoint (endpoints : list endpoint) : exn + endpoint :=
  match endpoints with
  | [] => inl (ValueError "max() arg is an empty sequence")
  | e :: rest => inr (max_by headroom e rest)
  end.

(** ** Usage update *)

(** An update expression that reads [used_quota] of a row that does not
    exist is rejected by DynamoDB with a ValidationException, which boto3
    raises as [ClientError]. *)
Definition update_quota (r : string) (increment : Z) (w : world) : (exn + unit) * world :=
  let w1 := log (UpdateItemQuota r increment) w in
  match table w !! r with
  | Some c => (inr tt, set_table (<[r := bump_counters increment c]> (table w)) w1)
  | None => (inl (ClientError "ValidationException"), w1)
  end.

(** Python truthiness of a decoded JSON value. *)
Definition truthy (v : json) : bool :=
  match v with
  | JNull => false
  | JBool b => b
  | JInt n => negb (n =? 0)
  | JStr s => negb (String.eqb s "")
  | JArr items => match items with [] => false | _ => true end
  | JObj fields => negb (bool_decide (fields = ∅))
  end.

Section Handler.

(** [clock n] is what the [n]-th reading of [int(time.time())] returns. *)
Variable clock : nat → Z.
(** The Bedrock runtime, for the selected region and the prompt. *)
Variable bedrock : string → json → downstream.

(** The row is overwritten whatever it holds: the update has no
    [ConditionExpression].  [update_item] on a key that is not in the
    table would create a row with only the two attributes set; the handler
    resets only rows it has just scanned, and the model leaves the table
    as it is in that case. *)
Definition reset_if_needed (e : endpoint) (w : world) : endpoint * world :=
  let current_time := clock (clock_reads w) in
  let w1 := tick w in
  if should_reset current_time (last_reset (attrs e)) then
    (zero_used e,
     set_table (alter (reset_counters current_time) (region e) (table w1))
               (log (UpdateItemReset (region e) current_time) w1))
  else (e, w1).

(** [for endpoint in endpoints: reset_if_needed(endpoint)] *)
Fixpoint reset_all (endpoints : list endpoint) (w : world) : list endpoint * world :=
  match endpoints with
  | [] => ([], w)
  | e :: rest =>
      let '(e', w1) := reset_if_needed e w in
      let '(rest', w2) := reset_all rest w1 in
      (e' :: rest', w2)
  end.

(** The second [try] block of [lambda_handler]. *)
Definition serve (prompt : json) (w : world) : outcome * world :=
  let '(endpoints, w1) := get_available_endpoints w in
  match endpoints with
  | [] => (Response 500 (Text "No endpoints available"), w1)
  | _ =>
      let '(endpoints', w2) := reset_all endpoints w1 in
      match select_best_endpoint endpoints' with
      | inl e => (Uncaught e, w2)
      | inr selected_endpoint =>
          let r := region selected_endpoint in
          let w3 := log (BedrockClient r) w2 in
          match bedrock r prompt with
          | ClientInitError msg =>
              (Response 500 (Text ("Error initializing Bedrock client: " +:+ msg)), w3)
          | InvocationError msg =>
              (Response 500 (Text ("Bedrock invocation failed: " +:+ msg)),
               log (InvokeModel r) w3)
          | InvocationOk result =>
              match update_quota r 1 (log (InvokeModel r) w3) with
              | (inr _, w4) => (Response 200 (RegionResponse r result), w4)
              | (inl (ClientError msg), w4) => (Response 500 (Text msg), w4)
              | (inl e, w4) => (Uncaught e, w4)
              end
          end
      end
  end.

Definition lambda_handler (ev : event) (w : world) : outcome * world :=
  match ev with
  | NoBody | BodyInvalidJson => (Response 400 (Text "Invalid input"), w)
  | NotADict => (Uncaught (TypeError "event is not subscriptable by a string"), w)
  | BodyNotText =>
      (Uncaught (TypeError "the JSON object must be str, bytes or bytearray"), w)
  | BodyTooDeep =>
      (Uncaught (RecursionError "maximum recursion depth exceeded"), w)
  | BodyJson (JObj fields) =>
      let prompt := default JNull (fields !! "prompt") in
      if negb (truthy prompt) then (Response 400 (Text "Prompt is required"), w)
      else serve prompt w
  | BodyJson _ => (Uncaught (AttributeError "object has no attribute 'get'"), w)
  end.

End Handler.

(** The in-memory items and the world once the scan and the reset loop of
    the handler are done, that is, as selection finds them. *)
Definition after_resets (clock : nat → Z) (w : world) : list endpoint * world :=
  reset_all clock (scan (table w)) (log Scan w).

(** ** Specification vocabulary *)

(** The 60-second window a time falls in, and what it means to fall in the
    window numbered [k]. *)
Definition window (t : Z) : Z := t / windowSeconds.

Definition in_window (k t : Z) : Prop :=
  windowSeconds * k <= t < windowSeconds * (k + 1).

(** How a window reset may change a row: not at all, or by the reset update
    at a time that called for it. *)
Inductive row_reset (c : counters) : counters → Prop :=
  | row_kept : row_reset c c
  | row_zeroed now :
      should_reset now (last_reset c) = true → row_reset c (reset_counters now c).

(** The items held in memory are what the table holds, one per key. *)
Definition fresh (es : list endpoint) (t : gmap string counters) : Prop :=
  NoDup (region <$> es) ∧ ∀ e, e ∈ es → t !! region e = Some (attrs e).

(** The state invariant of the data model on one table. *)
Definition used_nonneg (t : gmap string counters) : Prop :=
  ∀ r c, t !! r = Some c → 0 <= used_quota c.


(** A request the handler turns away: no body key, a body on which
    [json.loads] raises [ValueError], or a JSON object whose prompt is
    missing or falsy. *)
Definition rejected (ev : event) : Prop :=
  match ev with
  | NoBody | BodyInvalidJson => True
  | BodyJson (JObj fields) =>
      match fields !! "prompt" with
      | None => True
      | Some p => truthy p = false
      end
  | _ => False
  end.



(** ** The claims that the code does not meet, as the specification words them *)

(** Reset exactly when the two times fall in different windows. *)
Definition resets_iff_windows_differ (now lastReset : Z) : Prop :=
  should_reset now (Some lastReset) = true ↔ window now ≠ window lastReset.

(** The reset of the table is conditional: a row whose [last_reset] is no
    longer the one the caller read is left as it is. *)
Definition conditional_reset (clock : nat → Z) (e : endpoint) (w : world) : Prop :=
  ∀ c, table w !! region e = Some c →
    last_reset c ≠ last_reset (attrs e) →
    table (reset_if_needed clock e w).2 !! region e = Some c.

(** When the reset applies, the item in memory ends with [used_quota] 0 and
    [last_reset] the current time, as the row written to the table. *)
Definition memory_matches_store (clock : nat → Z) (e : endpoint) (w : world) : Prop :=
  should_reset (clock (clock_reads w)) (last_reset (attrs e)) = true →
  used_quota (attrs (reset_if_needed clock e w).1) = 0
  ∧ last_reset (attrs (reset_if_needed clock e w).1) = Some (clock (clock_reads w))
  ∧ table (reset_if_needed clock e w).2 !! region e
      = Some (attrs (reset_if_needed clock e w).1).



(** ** Sample inputs *)

(** A clock that stands still at [t], a Bedrock runtime that answers and one
    that fails, a request with a prompt, and a world in which nothing has
    happened yet. *)
Definition clock_at (t : Z) : nat → Z := λ _, t.

Definition bedrock_up : string → json → downstream :=
  λ _ _, InvocationOk (JStr "New Delhi").


Definition ask (prompt : string) : event :=
  BodyJson (JObj {[ "prompt" := JStr prompt ]}).

Definition idle (t : gmap string counters) : world :=
  {| table := t; clock_reads := 0; calls := [] |}.

(** The scenario of the specification: one depleted region and one with
    headroom 7, both last reset in the window of 1700000040. *)
Definition two_regions : gmap string counters :=
  {[ "us-east-1" := Counters 10 10 (Some 1700000040) 25;
     "us-west-2" := Counters 10 3 (Some 1700000040) 7 ]}.

(** An item read at 1700000040 and the row as another caller left it after
    resetting it at 1700000100 and recording two requests. *)
Definition stale_item : endpoint :=
  Endpoint "us-east-1" (Counters 10 9 (Some 1700000040) 25).

Definition newer_row : gmap string counters :=
  {[ "us-east-1" := Counters 10 2 (Some 1700000100) 27 ]}.


Definition same_row : gmap string counters :=
  {[ "us-east-1" := Counters 10 9 (Some 1700000040) 25 ]}.

(** A row provisioned without [last_reset]. *)
Definition unstamped_item : endpoint :=
  Endpoint "eu-west-1" (Counters 20 4 None 11).

Definition unstamped_row : gmap string counters :=
  {[ "eu-west-1" := Counters 20 4 None 11 ]}.

(** Three depleted endpoints, with headroom -2, 0 and 0. *)
Definition depleted : list endpoint :=
  [ Endpoint "us-east-1" (Counters 10 12 (Some 1700000040) 40);
    Endpoint "us-west-2" (Counters 10 10 (Some 1700000040) 31);
    Endpoint "eu-west-1" (Counters 5 5 (Some 1700000040) 9) ].

(** ** Windows *)

Lemma in_window_iff k t : in_window k t ↔ window t = k.
Proof.
  unfold in_window, window, windowSeconds. split.
  - intros H. symmetry. apply (Z.div_unique_pos t 60 k (t - 60 * k)); lia.
  - intros <-. pose proof (Z.mod_pos_bound t 60 ltac:(lia)).
    pose proof (Z.div_mod t 60 ltac:(lia)). lia.
Qed.

Lemma last_reset_window_nonneg d : 0 <= d → last_reset_window (Some d) = window d.
Proof.
  intros Hd. unfold last_reset_window, window.
  apply Z.quot_div_nonneg; [done | unfold windowSeconds; lia].
Qed.


Lemma should_reset_spec now lr :
  should_reset now lr = true ↔ last_reset_window lr < window now.
Proof.
  unfold should_reset, window. rewrite Z.gtb_ltb. apply Z.ltb_lt.
Qed.


(** ** Properties of selection *)

Section MaxBy.
Context {A : Type} (key : A → Z).

Lemma max_by_ge best rest : key best <= key (max_by key best rest).
Proof.
  revert best. induction rest as [|x rest IH]; intros best; simpl; [lia |].
  destruct (Z.gtb_spec (key x) (key best)).
  - specialize (IH x). lia.
  - apply IH.
Qed.

Lemma max_by_first best rest :
  ∃ pre post,
    best :: rest = pre ++ max_by key best rest :: post
    ∧ Forall (λ x, key x < key (max_by key best rest)) pre
    ∧ Forall (λ x, key x <= key (max_by key best rest)) post.
Proof.
  revert best. induction rest as [|x rest IH]; intros best; simpl.
  - exists [], []. by repeat constructor.
  - destruct (Z.gtb_spec (key x) (key best)) as [Hgt | Hle].
    + destruct (IH x) as (pre & post & Heq & Hpre & Hpost).
      exists (best :: pre), post. split; [by rewrite Heq |]. split; [|done].
      constructor; [|done]. pose proof (max_by_ge x rest). lia.
    + destruct (IH best) as (pre & post & Heq & Hpre & Hpost).
      destruct pre as [|b pre]; simpl in Heq.
      * injection Heq as Hb Hrest. exists [], (x :: post).
        split; [simpl; congruence |]. split; [constructor |].
        constructor; [|done]. rewrite <- Hb. lia.
      * injection Heq as Hb Hrest. subst b.
        exists (best :: x :: pre), post.
        split; [simpl; by do 2 f_equal |]. split; [|done].
        inversion Hpre as [|? ? Hbest Hpre']; subst.
        constructor; [done |]. constructor; [lia | done].
Qed.
End MaxBy.

(** ** The scan *)

Lemma scan_regions t : region <$> scan t = (map_to_list t).*1.
Proof. unfold scan. rewrite <- list_fmap_compose. done. Qed.

Lemma elem_of_scan e t : e ∈ scan t ↔ t !! region e = Some (attrs e).
Proof.
  unfold scan. rewrite list_elem_of_fmap. split.
  - intros ([k c] & -> & Hin). simpl. by apply elem_of_map_to_list.
  - intros H. exists (region e, attrs e). split; [by destruct e |].
    by apply elem_of_map_to_list.
Qed.

Lemma scan_fresh t : fresh (scan t) t.
Proof.
  split.
  - rewrite scan_regions. apply NoDup_fst_map_to_list.
  - intros e. apply elem_of_scan.
Qed.

Lemma scan_nil t : scan t = [] ↔ t = ∅.
Proof.
  unfold scan. rewrite <- map_to_list_empty_iff. split.
  - apply fmap_nil_inv.
  - by intros ->.
Qed.

(** ** The reset pass *)

Section ResetFacts.
Variable clock : nat → Z.

Lemma reset_if_needed_region e w : region (reset_if_needed clock e w).1 = region e.
Proof. unfold reset_if_needed. by destruct (should_reset _ _). Qed.

Lemma reset_if_needed_table e w :
  table (reset_if_needed clock e w).2 =
    if should_reset (clock (clock_reads w)) (last_reset (attrs e))
    then alter (reset_counters (clock (clock_reads w))) (region e) (table w)
    else table w.
Proof. unfold reset_if_needed. by destruct (should_reset _ _). Qed.

Lemma reset_if_needed_other e w r :
  r ≠ region e → table (reset_if_needed clock e w).2 !! r = table w !! r.
Proof.
  intros Hne. rewrite reset_if_needed_table. destruct (should_reset _ _); [|done].
  by apply lookup_alter_ne.
Qed.

Lemma reset_if_needed_row e w c :
  table w !! region e = Some c →
  table (reset_if_needed clock e w).2 !! region e =
    Some (if should_reset (clock (clock_reads w)) (last_reset (attrs e))
          then reset_counters (clock (clock_reads w)) c else c).
Proof.
  intros Hc. rewrite reset_if_needed_table. destruct (should_reset _ _); [|done].
  by rewrite lookup_alter_eq, Hc.
Qed.

Lemma reset_all_cons e rest w :
  reset_all clock (e :: rest) w =
    ((reset_if_needed clock e w).1 :: (reset_all clock rest (reset_if_needed clock e w).2).1,
     (reset_all clock rest (reset_if_needed clock e w).2).2).
Proof.
  cbn [reset_all]. destruct (reset_if_needed clock e w) as [e' w1].
  cbn [fst snd]. by destruct (reset_all clock rest w1) as [rest' w2].
Qed.

Lemma reset_all_regions es w : region <$> (reset_all clock es w).1 = region <$> es.
Proof.
  revert w. induction es as [|e rest IH]; intros w; [done |].
  rewrite reset_all_cons. simpl. by rewrite reset_if_needed_region, IH.
Qed.

Lemma reset_all_other es w r :
  r ∉ region <$> es → table (reset_all clock es w).2 !! r = table w !! r.
Proof.
  revert w. induction es as [|e rest IH]; intros w Hnot; [done |].
  rewrite reset_all_cons. simpl. rewrite fmap_cons, not_elem_of_cons in Hnot.
  destruct Hnot as [Hne Hrest]. rewrite IH by done.
  by apply reset_if_needed_other.
Qed.

Lemma reset_all_absent es w r :
  table w !! r = None → table (reset_all clock es w).2 !! r = None.
Proof.
  revert w. induction es as [|e rest IH]; intros w Hr; [done |].
  rewrite reset_all_cons. simpl. apply IH. rewrite reset_if_needed_table.
  destruct (should_reset _ _); [|done]. by apply lookup_alter_None.
Qed.

(** After the pass every row is as it was or has been reset once, by the
    check made on the value the table held. *)
Lemma reset_all_rows es w r c :
  fresh es (table w) →
  table w !! r = Some c →
  ∃ c1, table (reset_all clock es w).2 !! r = Some c1 ∧ row_reset c c1.
Proof.
  revert w. induction es as [|e rest IH]; intros w [Hnd Hag] Hr.
  - exists c. split; [done | constructor].
  - rewrite reset_all_cons. simpl. rewrite fmap_cons in Hnd.
    apply NoDup_cons in Hnd as [Hhead Hnd].
    assert (Hfresh : fresh rest (table (reset_if_needed clock e w).2)).
    { split; [done |]. intros e' He'.
      rewrite reset_if_needed_other.
      - apply Hag. by right.
      - intros Heq. apply Hhead. rewrite <- Heq. by apply list_elem_of_fmap_2. }
    destruct (decide (r = region e)) as [-> | Hne].
    + rewrite reset_all_other by done.
      assert (Hc : c = attrs e).
      { specialize (Hag e ltac:(by left)). congruence. }
      rewrite (reset_if_needed_row e w c Hr). subst c.
      destruct (should_reset _ _) eqn:Hsr; eexists; (split; [done |]).
      * by constructor.
      * constructor.
    + apply IH; [done |]. by rewrite reset_if_needed_other.
Qed.

(** The pass only adds reset updates to the log. *)
Lemma reset_all_calls es w :
  ∃ l, calls (reset_all clock es w).2 = calls w ++ l
       ∧ Forall (λ c, ∃ r now, c = UpdateItemReset r now) l.
Proof.
  revert w. induction es as [|e rest IH]; intros w.
  - exists []. by rewrite app_nil_r.
  - rewrite reset_all_cons. simpl.
    destruct (IH (reset_if_needed clock e w).2) as (l & -> & Hl).
    unfold reset_if_needed. destruct (should_reset _ _); simpl.
    + eexists (_ :: l). rewrite <- app_assoc. split; [done |].
      constructor; [by eauto | done].
    + by exists l.
Qed.

End ResetFacts.

(** ** The handler *)

Section HandlerFacts.
Variable clock : nat → Z.
Variable bedrock : string → json → downstream.

Lemma select_best_endpoint_elem es :
  es ≠ [] → ∃ sel, select_best_endpoint es = inr sel ∧ sel ∈ es.
Proof.
  destruct es as [|e rest]; [done | intros _].
  exists (max_by headroom e rest). split; [done |].
  destruct (max_by_first headroom e rest) as (pre & post & -> & _).
  apply elem_of_app. right. by left.
Qed.

(** With a table that is not empty the handler gets as far as the
    downstream call, for a region whose row is in the table, and what it
    does next is decided by the outcome of that call alone. *)
Lemma serve_selected prompt w :
  table w ≠ ∅ →
  ∃ sel c1,
    select_best_endpoint (after_resets clock w).1 = inr sel
    ∧ sel ∈ (after_resets clock w).1
    ∧ table (after_resets clock w).2 !! region sel = Some c1
    ∧ serve clock bedrock prompt w =
        let r := region sel in
        let w3 := log (BedrockClient r) (after_resets clock w).2 in
        match bedrock r prompt with
        | ClientInitError msg =>
            (Response 500 (Text ("Error initializing Bedrock client: " +:+ msg)), w3)
        | InvocationError msg =>
            (Response 500 (Text ("Bedrock invocation failed: " +:+ msg)),
             log (InvokeModel r) w3)
        | InvocationOk result =>
            (Response 200 (RegionResponse r result),
             set_table (<[r := bump_counters 1 c1]> (table w3))
                       (log (UpdateItemQuota r 1) (log (InvokeModel r) w3)))
        end.
Proof.
  intros Hne. unfold serve, get_available_endpoints, after_resets.
  assert (Hscan : scan (table w) ≠ []) by by rewrite scan_nil.
  destruct (reset_all clock (scan (table w)) (log Scan w)) as [es' w2] eqn:Hpass.
  assert (Hregs : region <$> es' = region <$> scan (table w)).
  { pose proof (reset_all_regions clock (scan (table w)) (log Scan w)) as H.
    by rewrite Hpass in H. }
  assert (Hes' : es' ≠ []).
  { intros ->. symmetry in Hregs. by apply fmap_nil_inv in Hregs. }
  destruct (select_best_endpoint_elem es' Hes') as (sel & Hsel & Hin).
  assert (Hrow : ∃ c1, table w2 !! region sel = Some c1).
  { assert (Hr : region sel ∈ region <$> scan (table w)).
    { rewrite <- Hregs. by apply list_elem_of_fmap_2. }
    apply list_elem_of_fmap in Hr as (e0 & Hreg & He0).
    apply elem_of_scan in He0. rewrite <- Hreg in He0.
    destruct (reset_all_rows clock (scan (table w)) (log Scan w) (region sel) (attrs e0))
      as (c1 & Hc1 & _); [apply scan_fresh | done |].
    rewrite Hpass in Hc1. by exists c1. }
  destruct Hrow as [c1 Hc1]. exists sel, c1. simpl.
  split; [done |]. split; [done |]. split; [done |].
  destruct (scan (table w)) as [|e0 rest]; [done |].
  rewrite Hsel. destruct (bedrock (region sel) prompt); try done.
  unfold update_quota. simpl. by rewrite Hc1.
Qed.

End HandlerFacts.


(** * The claims *)

(** ** Reset policy *)

(** C2, as the specification states it, fails: with [now] in an earlier
    window than [lastReset] the windows differ and there is no reset. *)
Lemma earlier_window_no_reset : ¬ resets_iff_windows_differ 1700000040 1700000100.
Proof.
  unfold resets_iff_windows_differ. intros [_ H].
  assert (Hne : window 1700000040 ≠ window 1700000100) by (vm_compute; discriminate).
  specialize (H Hne). vm_compute in H. discriminate.
Qed.

(** C2, amended: for every [now] and every [lastReset] that is not negative,
    [should_reset] holds exactly when [now] falls in a strictly later
    60-second window than [lastReset], and it is false when the windows are
    equal or the window of [now] is the earlier one. *)
Theorem should_reset_iff_later_window (now lastReset : Z) :
  0 <= lastReset →
  (should_reset now (Some lastReset) = true ↔ window lastReset < window now)
  ∧ (should_reset now (Some lastReset) = true ↔
       ∃ k j, in_window k lastReset ∧ in_window j now ∧ k < j)
  ∧ (window now <= window lastReset → should_reset now (Some lastReset) = false).
Proof.
  intros Hlr.
  assert (Hiff : should_reset now (Some lastReset) = true ↔ window lastReset < window now).
  { by rewrite should_reset_spec, last_reset_window_nonneg. }
  split; [done |]. split.
  - rewrite Hiff. split.
    + intros Hlt. exists (window lastReset), (window now).
      by rewrite !in_window_iff.
    + intros (k & j & Hk & Hj & Hlt). apply in_window_iff in Hk, Hj. lia.
  - intros Hle. apply not_true_is_false. rewrite Hiff. lia.
Qed.

Lemma should_reset_iff_later_window_witness :
  0 <= 1700000040
  ∧ (should_reset 1700000110 (Some 1700000040) = true
       ↔ window 1700000040 < window 1700000110)
  ∧ (should_reset 1700000110 (Some 1700000040) = true ↔
       ∃ k j, in_window k 1700000040 ∧ in_window j 1700000110 ∧ k < j)
  ∧ (window 1700000110 <= window 1700000040 →
       should_reset 1700000110 (Some 1700000040) = false).
Proof.
  split; [lia |]. apply (should_reset_iff_later_window 1700000110 1700000040). lia.
Defined.

(** ** Selection *)

(** C3: on a sequence that is not empty the selection returns an element of
    it such that [total_quota - used_quota] is strictly smaller for every
    element before it and no larger for every element after it; the sign of
    that difference plays no part, so depleted endpoints are returned like
    any other. *)
Theorem select_best_endpoint_first_max (endpoints : list endpoint) :
  endpoints ≠ [] →
  ∃ best pre post,
    select_best_endpoint endpoints = inr best
    ∧ endpoints = pre ++ best :: post
    ∧ Forall (λ x, total_quota (attrs x) - used_quota (attrs x)
                   < total_quota (attrs best) - used_quota (attrs best)) pre
    ∧ Forall (λ x, total_quota (attrs x) - used_quota (attrs x)
                   <= total_quota (attrs best) - used_quota (attrs best)) post.
Proof.
  destruct endpoints as [|e rest]; [done | intros _].
  destruct (max_by_first headroom e rest) as (pre & post & Heq & Hpre & Hpost).
  exists (max_by headroom e rest), pre, post.
  split; [done |]. split; [done |]. split; [exact Hpre | exact Hpost].
Qed.

(** On the depleted pool (differences -2, 0, 0) the second endpoint is the
    one returned: the first with difference 0. *)
Lemma select_best_endpoint_first_max_witness :
  depleted ≠ []
  ∧ ∃ best pre post,
      select_best_endpoint depleted = inr best
      ∧ best = Endpoint "us-west-2" (Counters 10 10 (Some 1700000040) 31)
      ∧ total_quota (attrs best) - used_quota (attrs best) = 0
      ∧ depleted = pre ++ best :: post
      ∧ Forall (λ x, total_quota (attrs x) - used_quota (attrs x)
                     < total_quota (attrs best) - used_quota (attrs best)) pre
      ∧ Forall (λ x, total_quota (attrs x) - used_quota (attrs x)
                     <= total_quota (attrs best) - used_quota (attrs best)) post.
Proof.
  split; [discriminate |].
  destruct (select_best_endpoint_first_max depleted ltac:(discriminate))
    as (best & pre & post & Hsel & Heq & Hpre & Hpost).
  exists best, pre, post. split; [exact Hsel |].
  assert (Hbest : best = Endpoint "us-west-2" (Counters 10 10 (Some 1700000040) 31)).
  { vm_compute in Hsel. injection Hsel as <-. reflexivity. }
  split; [exact Hbest |]. split; [rewrite Hbest; reflexivity |].
  split; [exact Heq |]. split; [exact Hpre | exact Hpost].
Defined.

(** With every endpoint depleted the first of the least depleted is chosen. *)
Example select_depleted :
  select_best_endpoint depleted
  = inr (Endpoint "us-west-2" (Counters 10 10 (Some 1700000040) 31)).
Proof. reflexivity. Qed.

(** The scenario of the specification, in either order of the two items. *)
Example select_scenario :
  region <$> [max_by headroom (Endpoint "us-east-1" (Counters 10 10 (Some 1700000040) 25))
                [Endpoint "us-west-2" (Counters 10 3 (Some 1700000040) 7)];
              max_by headroom (Endpoint "us-west-2" (Counters 10 3 (Some 1700000040) 7))
                [Endpoint "us-east-1" (Counters 10 10 (Some 1700000040) 25)]]
  = ["us-west-2"; "us-west-2"].
Proof. reflexivity. Qed.

(** ** Applying the reset *)

Section ResetClaims.
Variable clock : nat → Z.

(** C4, amended: the reset is decided on the caller's copy alone and
    overwrites the row: when the check on the item in memory calls for it,
    the row of that region gets [used_quota] 0 and [last_reset] the current
    time whatever [last_reset] the table holds by then, and no other row
    changes; when the check does not call for it the table is untouched. *)
Theorem reset_is_unconditional (e : endpoint) (w : world) (c : counters) :
  table w !! region e = Some c →
  table (reset_if_needed clock e w).2 !! region e =
    Some (if should_reset (clock (clock_reads w)) (last_reset (attrs e))
          then {| total_quota := total_quota c; used_quota := 0;
                  last_reset := Some (clock (clock_reads w));
                  request_count := request_count c |}
          else c)
  ∧ (∀ r, r ≠ region e → table (reset_if_needed clock e w).2 !! r = table w !! r)
  ∧ (should_reset (clock (clock_reads w)) (last_reset (attrs e)) = false →
       table (reset_if_needed clock e w).2 = table w).
Proof.
  intros Hc. split; [|split].
  - by rewrite (reset_if_needed_row clock e w c Hc).
  - intros r Hne. by apply reset_if_needed_other.
  - intros Hno. by rewrite reset_if_needed_table, Hno.
Qed.

(** C6, amended: when the reset applies, the item in memory gets
    [used_quota] 0, which is the [used_quota] written to the table, and is
    otherwise as it was read: its [last_reset] keeps the old value while
    the row's becomes the current time. *)
Theorem reset_zeroes_memory_copy (e : endpoint) (w : world) (c : counters) :
  should_reset (clock (clock_reads w)) (last_reset (attrs e)) = true →
  table w !! region e = Some c →
  used_quota (attrs (reset_if_needed clock e w).1) = 0
  ∧ last_reset (attrs (reset_if_needed clock e w).1) = last_reset (attrs e)
  ∧ total_quota (attrs (reset_if_needed clock e w).1) = total_quota (attrs e)
  ∧ request_count (attrs (reset_if_needed clock e w).1) = request_count (attrs e)
  ∧ region (reset_if_needed clock e w).1 = region e
  ∧ ∃ c', table (reset_if_needed clock e w).2 !! region e = Some c'
          ∧ used_quota c' = used_quota (attrs (reset_if_needed clock e w).1)
          ∧ last_reset c' = Some (clock (clock_reads w)).
Proof.
  intros Hsr Hc. rewrite (reset_if_needed_row clock e w c Hc).
  unfold reset_if_needed. rewrite Hsr. simpl.
  repeat (split; [done |]). by eexists.
Qed.

(** C9: an item without [last_reset] is checked against window 0, the
    window of the default 0; so from the 60th second of the epoch on it is
    reset: [used_quota] becomes 0 in memory and in the table, and the row's
    [last_reset] becomes the current time. *)
Theorem missing_last_reset_is_epoch (e : endpoint) (w : world) (c : counters) :
  last_reset (attrs e) = None →
  windowSeconds <= clock (clock_reads w) →
  table w !! region e = Some c →
  last_reset_window (last_reset (attrs e)) = window 0
  ∧ should_reset (clock (clock_reads w)) (last_reset (attrs e)) = true
  ∧ used_quota (attrs (reset_if_needed clock e w).1) = 0
  ∧ ∃ c', table (reset_if_needed clock e w).2 !! region e = Some c'
          ∧ used_quota c' = 0
          ∧ last_reset c' = Some (clock (clock_reads w))
          ∧ total_quota c' = total_quota c
          ∧ request_count c' = request_count c.
Proof.
  intros Hnone Hnow Hc.
  assert (Hsr : should_reset (clock (clock_reads w)) (last_reset (attrs e)) = true).
  { rewrite Hnone. apply should_reset_spec. unfold last_reset_window, window.
    unfold windowSeconds in *. change (0 / 60) with 0.
    pose proof (Z.div_le_mono 60 (clock (clock_reads w)) 60 ltac:(lia) Hnow) as Hd.
    change (60 / 60) with 1 in Hd. lia. }
  split; [by rewrite Hnone |]. split; [done |].
  rewrite (reset_if_needed_row clock e w c Hc).
  unfold reset_if_needed. rewrite Hsr. simpl.
  split; [done |]. by eexists.
Qed.

End ResetClaims.

(** C4, as the specification states it, fails: the caller read the item at
    1700000040, the row has since been reset at 1700000100 and charged
    twice, and at 1700000110 the reset zeroes it again. *)
Lemma reset_overwrites_newer_row :
  ¬ conditional_reset (clock_at 1700000110) stale_item (idle newer_row).
Proof.
  intros H.
  specialize (H (Counters 10 2 (Some 1700000100) 27) eq_refl ltac:(discriminate)).
  vm_compute in H. discriminate.
Qed.

Lemma reset_is_unconditional_witness :
  table (idle newer_row) !! region stale_item = Some (Counters 10 2 (Some 1700000100) 27)
  ∧ table (reset_if_needed (clock_at 1700000110) stale_item (idle newer_row)).2
      !! region stale_item
    = Some (Counters 10 0 (Some 1700000110) 27).
Proof.
  split; [reflexivity |].
  exact (proj1 (reset_is_unconditional (clock_at 1700000110) stale_item (idle newer_row)
                  (Counters 10 2 (Some 1700000100) 27) eq_refl)).
Defined.

(** C6, as the specification states it, fails: after the reset at
    1700000110 the item in memory still carries the [last_reset] it was
    read with. *)
Lemma memory_last_reset_stale :
  ¬ memory_matches_store (clock_at 1700000110) stale_item (idle same_row).
Proof.
  intros H. destruct (H eq_refl) as (_ & Hlr & _).
  vm_compute in Hlr. discriminate.
Qed.

Lemma reset_zeroes_memory_copy_witness :
  should_reset (clock_at 1700000110 (clock_reads (idle same_row)))
    (last_reset (attrs stale_item)) = true
  ∧ table (idle same_row) !! region stale_item = Some (attrs stale_item)
  ∧ used_quota (attrs (reset_if_needed (clock_at 1700000110) stale_item (idle same_row)).1) = 0
  ∧ last_reset (attrs (reset_if_needed (clock_at 1700000110) stale_item (idle same_row)).1)
    = Some 1700000040.
Proof.
  split; [reflexivity |]. split; [reflexivity |].
  pose proof (reset_zeroes_memory_copy (clock_at 1700000110) stale_item (idle same_row)
                (attrs stale_item) eq_refl eq_refl) as (Hu & Hlr & _).
  split; [exact Hu | exact Hlr].
Defined.

Lemma missing_last_reset_is_epoch_witness :
  last_reset (attrs unstamped_item) = None
  ∧ windowSeconds <= clock_at 60 (clock_reads (idle unstamped_row))
  ∧ table (idle unstamped_row) !! region unstamped_item = Some (Counters 20 4 None 11)
  ∧ ∃ c', table (reset_if_needed (clock_at 60) unstamped_item (idle unstamped_row)).2
            !! region unstamped_item = Some c'
          ∧ used_quota c' = 0
          ∧ last_reset c' = Some 60
          ∧ total_quota c' = 20
          ∧ request_count c' = 11.
Proof.
  split; [reflexivity |]. split; [unfold windowSeconds, clock_at; lia |].
  split; [reflexivity |].
  refine (proj2 (proj2 (proj2 (missing_last_reset_is_epoch (clock_at 60) unstamped_item
            (idle unstamped_row) (Counters 20 4 None 11) eq_refl _ eq_refl)))).
  unfold windowSeconds, clock_at. lia.
Defined.

(** One second earlier the unstamped row is left alone. *)
Example unstamped_before_first_window :
  reset_if_needed (clock_at 59) unstamped_item (idle unstamped_row)
  = (unstamped_item, tick (idle unstamped_row)).
Proof. reflexivity. Qed.

(** ** The handler as a whole *)

Section HandlerClaims.
Variable clock : nat → Z.
Variable bedrock : string → json → downstream.

Lemma serve_empty prompt w :
  table w = ∅ →
  serve clock bedrock prompt w
  = (Response 500 (Text "No endpoints available"), log Scan w).
Proof.
  intros Hempty. unfold serve, get_available_endpoints.
  by rewrite (proj2 (scan_nil (table w)) Hempty).
Qed.

Lemma lambda_handler_accepted fields w :
  truthy (default JNull (fields !! "prompt")) = true →
  lambda_handler clock bedrock (BodyJson (JObj fields)) w
  = serve clock bedrock (default JNull (fields !! "prompt")) w.
Proof. intros Hp. unfold lambda_handler. by rewrite Hp. Qed.

(** C7: the selection fails on the empty sequence (Python's [max] raises
    [ValueError]), and when the scan returns no item the handler fails with
    its "No endpoints available" response, having done nothing but the
    scan. *)
Theorem no_endpoints_available (fields : gmap string json) (w : world) :
  truthy (default JNull (fields !! "prompt")) = true →
  table w = ∅ →
  (∃ msg, select_best_endpoint [] = inl (ValueError msg))
  ∧ (get_available_endpoints w).1 = []
  ∧ lambda_handler clock bedrock (BodyJson (JObj fields)) w
    = (Response 500 (Text "No endpoints available"), log Scan w).
Proof.
  intros Hp Hempty. split; [by eexists |]. split.
  - by apply scan_nil.
  - rewrite lambda_handler_accepted by done. by apply serve_empty.
Qed.

(** The requests that [rejected] describes are answered with status 400 and
    the world is left exactly as it was: no scan, no update, no reading of
    the clock. *)
Theorem bad_request_touches_nothing (ev : event) (w : world) :
  rejected ev →
  ∃ msg, lambda_handler clock bedrock ev w = (Response 400 (Text msg), w).
Proof.
  destruct ev as [| | | | |v]; simpl; try done; try by eexists.
  destruct v as [| | | | |fields]; try done.
  destruct (fields !! "prompt") as [p|]; simpl.
  - intros ->. by eexists.
  - intros _. by eexists.
Qed.

(** What a run of the handler can do to a row: reset it or not, and then
    charge it or not; rows are neither created nor deleted. *)
Lemma lambda_handler_rows ev w r :
  match table w !! r with
  | None => table (lambda_handler clock bedrock ev w).2 !! r = None
  | Some c =>
      ∃ c1, row_reset c c1
            ∧ (table (lambda_handler clock bedrock ev w).2 !! r = Some c1
               ∨ table (lambda_handler clock bedrock ev w).2 !! r
                 = Some (bump_counters 1 c1))
  end.
Proof.
  assert (Hsame : ∀ o : outcome, match table w !! r with
    | None => table (o, w).2 !! r = None
    | Some c => ∃ c1, row_reset c c1
        ∧ (table (o, w).2 !! r = Some c1 ∨ table (o, w).2 !! r = Some (bump_counters 1 c1))
    end).
  { intros o. simpl. destruct (table w !! r) as [c|]; [|done].
    exists c. split; [constructor | by left]. }
  assert (Hserve : ∀ prompt, match table w !! r with
    | None => table (serve clock bedrock prompt w).2 !! r = None
    | Some c => ∃ c1, row_reset c c1
        ∧ (table (serve clock bedrock prompt w).2 !! r = Some c1
           ∨ table (serve clock bedrock prompt w).2 !! r = Some (bump_counters 1 c1))
    end).
  { intros prompt. destruct (decide (table w = ∅)) as [Hempty | Hne].
    - rewrite serve_empty by done. apply (Hsame (Response 500 (Text ""))).
    - destruct (serve_selected clock bedrock prompt w Hne)
        as (sel & c2 & _ & _ & Hc2 & ->). cbv zeta.
      pose proof (reset_all_rows clock (scan (table w)) (log Scan w) r) as Hrows.
      pose proof (reset_all_absent clock (scan (table w)) (log Scan w) r) as Habs.
      fold (after_resets clock w) in Hrows, Habs. simpl in Hrows, Habs.
      destruct (table w !! r) as [c|] eqn:Hr.
      + destruct (Hrows c (scan_fresh _) eq_refl) as (c1 & Hc1 & Hreset).
        exists c1. split; [done |].
        destruct (bedrock (region sel) prompt); simpl; [by left | by left |].
        destruct (decide (r = region sel)) as [-> | Hneq].
        * right. rewrite lookup_insert_eq. congruence.
        * left. by rewrite lookup_insert_ne.
      + specialize (Habs eq_refl).
        destruct (bedrock (region sel) prompt); simpl; [done | done |].
        rewrite lookup_insert_ne; [done |]. intros <-. congruence. }
  destruct ev as [| | | | |v]; try apply Hsame.
  destruct v as [| | | | |fields]; try apply Hsame.
  unfold lambda_handler. destruct (negb _); [apply Hsame | apply Hserve].
Qed.

End HandlerClaims.

Lemma no_endpoints_available_witness :
  truthy (default JNull (({[ "prompt" := JStr "capital of India?" ]} : gmap string json)
                            !! "prompt")) = true
  ∧ table (idle ∅) = ∅
  ∧ lambda_handler (clock_at 1700000050) bedrock_up (ask "capital of India?") (idle ∅)
    = (Response 500 (Text "No endpoints available"), log Scan (idle ∅)).
Proof.
  split; [reflexivity |]. split; [reflexivity |].
  exact (proj2 (proj2 (no_endpoints_available (clock_at 1700000050) bedrock_up
           {[ "prompt" := JStr "capital of India?" ]} (idle ∅) eq_refl eq_refl))).
Defined.

Lemma bad_request_touches_nothing_witness :
  rejected (ask "")
  ∧ ∃ msg, lambda_handler (clock_at 1700000050) bedrock_up (ask "") (idle two_regions)
           = (Response 400 (Text msg), idle two_regions).
Proof.
  assert (Hrej : rejected (ask "")) by reflexivity.
  split; [exact Hrej |].
  exact (bad_request_touches_nothing (clock_at 1700000050) bedrock_up (ask "")
           (idle two_regions) Hrej).
Defined.

(** C10: the handler does not answer every request without a usable prompt
    with status 400.  A body that is not text (the [None] of a request sent
    without a body), a body that is JSON but not an object, and text nested
    beyond the recursion limit each raise an exception that
    [except (ValueError, KeyError)] does not catch, so it leaves the handler;
    the world is as it was in each case. *)
Theorem bad_request_escapes (clock : nat → Z) (bedrock : string → json → downstream)
    (w : world) :
  lambda_handler clock bedrock BodyNotText w
  = (Uncaught (TypeError "the JSON object must be str, bytes or bytearray"), w)
  ∧ lambda_handler clock bedrock (BodyJson (JArr [])) w
    = (Uncaught (AttributeError "object has no attribute 'get'"), w)
  ∧ lambda_handler clock bedrock (BodyJson JNull) w
    = (Uncaught (AttributeError "object has no attribute 'get'"), w)
  ∧ lambda_handler clock bedrock BodyTooDeep w
    = (Uncaught (RecursionError "maximum recursion depth exceeded"), w).
Proof. repeat split. Qed.

(** The other ways of being turned away. *)
Example bad_requests :
  (lambda_handler (clock_at 1700000050) bedrock_up BodyInvalidJson (idle two_regions)
   = (Response 400 (Text "Invalid input"), idle two_regions))
  ∧ (lambda_handler (clock_at 1700000050) bedrock_up (BodyJson (JObj ∅)) (idle two_regions)
     = (Response 400 (Text "Prompt is required"), idle two_regions)).
Proof. split; reflexivity. Qed.

(** ** Accounting *)

Lemma row_reset_fields c c1 :
  row_reset c c1 →
  total_quota c1 = total_quota c ∧ request_count c1 = request_count c.
Proof. by intros [|now Hsr]. Qed.



Section Accounting.
Variable clock : nat → Z.
Variable bedrock : string → json → downstream.




End Accounting.

(** *** On the sample tables *)


Lemma same_row_used_nonneg : used_nonneg same_row.
Proof.
  intros r c H. unfold same_row in H.
  apply lookup_singleton_Some in H as [_ <-]. simpl. lia.
Qed.



(** The same request when the model answers: the charge is the last call. *)
Example charge_after_invocation :
  calls (lambda_handler (clock_at 1700000050) bedrock_up (ask "capital of India?")
           (idle two_regions)).2
  = [Scan; BedrockClient "us-west-2"; InvokeModel "us-west-2";
     UpdateItemQuota "us-west-2" 1].
Proof. vm_compute. reflexivity. Qed.


(** The rows after that run: both reset at 1700000110, one charged. *)
Example rows_after_reserve :
  let w' := (lambda_handler (clock_at 1700000110) bedrock_up (ask "capital of India?")
               (idle two_regions)).2 in
  table w' !! "us-west-2" = Some (Counters 10 1 (Some 1700000110) 8)
  ∧ table w' !! "us-east-1" = Some (Counters 10 0 (Some 1700000110) 25).
Proof. split; vm_compute; reflexivity. Qed.




(** With an increment below 0 the usage update alone takes [used_quota]
    below 0. *)
Example negative_increment_breaks_used_nonneg :
  used_nonneg (table (idle same_row))
  ∧ ¬ used_nonneg (table (update_quota "us-east-1" (-10) (idle same_row)).2).
Proof.
  split; [exact same_row_used_nonneg |]. intros H.
  specialize (H "us-east-1" (Counters 10 (-1) (Some 1700000040) 26) eq_refl).
  simpl in H. lia.
Qed.

(** ** What selection sees *)

(** The items handed to the selection carry the quotas of the table as the
    reset pass left it, so the headroom compared is the one on record. *)
Lemma reset_all_memory clock es w e' :
  fresh es (table w) →
  e' ∈ (reset_all clock es w).1 →
  ∃ c', table (reset_all clock es w).2 !! region e' = Some c'
        ∧ used_quota c' = used_quota (attrs e')
        ∧ total_quota c' = total_quota (attrs e')
        ∧ request_count c' = request_count (attrs e').
Proof.
  revert w. induction es as [|e rest IH]; intros w [Hnd Hag] Hin.
  - by apply elem_of_nil in Hin.
  - rewrite reset_all_cons in Hin |- *. simpl in Hin |- *.
    rewrite fmap_cons in Hnd. apply NoDup_cons in Hnd as [Hhead Hnd].
    apply elem_of_cons in Hin as [-> | Hin].
    + rewrite reset_if_needed_region, reset_all_other by done.
      rewrite (reset_if_needed_row clock e w (attrs e)) by (apply Hag; by left).
      unfold reset_if_needed. destruct (should_reset _ _); by eexists.
    + apply IH; [|done]. split; [done |]. intros e0 He0.
      rewrite reset_if_needed_other.
      * apply Hag. by right.
      * intros Heq. apply Hhead. rewrite <- Heq. by apply list_elem_of_fmap_2.
Qed.

Lemma after_resets_headroom clock w e' :
  e' ∈ (after_resets clock w).1 →
  ∃ c', table (after_resets clock w).2 !! region e' = Some c'
        ∧ headroom e' = total_quota c' - used_quota c'.
Proof.
  intros Hin.
  destruct (reset_all_memory clock (scan (table w)) (log Scan w) e' (scan_fresh _) Hin)
    as (c' & Hc' & Hu & Ht & _).
  exists c'. split; [done |]. unfold headroom. by rewrite Hu, Ht.
Qed.

(** * Further properties *)

(** ** Selection *)

Section MaxByMore.
Context {A : Type} (key : A → Z).

Lemma max_by_keep best rest :
  Forall (λ x, key x <= key best) rest → max_by key best rest = best.
Proof.
  induction 1 as [|x rest Hx _ IH]; [done |]. simpl.
  destruct (Z.gtb_spec (key x) (key best)); [lia | done].
Qed.

Lemma max_by_skip best pre x post :
  key best < key x →
  Forall (λ y, key y < key x) pre →
  max_by key best (pre ++ x :: post) = max_by key x post.
Proof.
  intros Hbest Hpre. revert best Hbest.
  induction Hpre as [|p pre Hp _ IH]; intros best Hbest; simpl.
  - destruct (Z.gtb_spec (key x) (key best)); [done | lia].
  - destruct (Z.gtb_spec (key p) (key best)); by apply IH.
Qed.
End MaxByMore.

(** The element that C3 describes is the only one there is: whichever
    element has no larger one after it and only smaller ones before it is
    the one returned. *)
Theorem select_best_endpoint_complete (pre post : list endpoint) (x : endpoint) :
  Forall (λ y, headroom y < headroom x) pre →
  Forall (λ y, headroom y <= headroom x) post →
  select_best_endpoint (pre ++ x :: post) = inr x.
Proof.
  intros Hpre Hpost. destruct pre as [|b pre]; simpl.
  - by rewrite max_by_keep.
  - inversion Hpre as [|? ? Hb Hpre']; subst.
    by rewrite max_by_skip, max_by_keep.
Qed.

Lemma select_best_endpoint_complete_witness :
  Forall (λ y, headroom y < headroom (Endpoint "us-west-2" (Counters 10 10 (Some 1700000040) 31)))
    [Endpoint "us-east-1" (Counters 10 12 (Some 1700000040) 40)]
  ∧ Forall (λ y, headroom y <= headroom (Endpoint "us-west-2" (Counters 10 10 (Some 1700000040) 31)))
      [Endpoint "eu-west-1" (Counters 5 5 (Some 1700000040) 9)]
  ∧ select_best_endpoint depleted
    = inr (Endpoint "us-west-2" (Counters 10 10 (Some 1700000040) 31)).
Proof.
  assert (H1 : Forall (λ y, headroom y
                  < headroom (Endpoint "us-west-2" (Counters 10 10 (Some 1700000040) 31)))
                 [Endpoint "us-east-1" (Counters 10 12 (Some 1700000040) 40)]).
  { repeat constructor. }
  assert (H2 : Forall (λ y, headroom y
                  <= headroom (Endpoint "us-west-2" (Counters 10 10 (Some 1700000040) 31)))
                 [Endpoint "eu-west-1" (Counters 5 5 (Some 1700000040) 9)]).
  { constructor; [|constructor]. unfold headroom. simpl. lia. }
  split; [exact H1 |]. split; [exact H2 |].
  exact (select_best_endpoint_complete _ _ _ H1 H2).
Defined.

Lemma select_best_endpoint_max es sel x :
  select_best_endpoint es = inr sel → x ∈ es → headroom x <= headroom sel.
Proof.
  destruct es as [|e rest]; [done |]. intros [= <-] Hx.
  destruct (max_by_first headroom e rest) as (pre & post & Heq & Hpre & Hpost).
  rewrite Heq in Hx. rewrite Forall_forall in Hpre, Hpost.
  apply elem_of_app in Hx as [Hx | Hx]; [specialize (Hpre x Hx); lia |].
  apply elem_of_cons in Hx as [-> | Hx]; [lia | by apply Hpost].
Qed.

(** ** The usage update *)

(** Usage updates commute: in whichever order two of them reach the table,
    for the same region or for two, the table ends the same. *)
Theorem update_quota_commutes (r1 r2 : string) (i1 i2 : Z) (w : world) :
  table (update_quota r2 i2 (update_quota r1 i1 w).2).2
  = table (update_quota r1 i1 (update_quota r2 i2 w).2).2.
Proof.
  assert (Hbump : ∀ c, bump_counters i2 (bump_counters i1 c)
                       = bump_counters i1 (bump_counters i2 c)).
  { intros c. unfold bump_counters. simpl. f_equal; lia. }
  unfold update_quota.
  destruct (table w !! r1) as [c1|] eqn:H1; destruct (table w !! r2) as [c2|] eqn:H2;
    simpl; rewrite ?lookup_insert; repeat case_decide; simplify_eq/=;
    rewrite ?H1, ?H2; simpl; try done.
  - by rewrite !insert_insert_eq, Hbump.
  - by apply insert_insert_ne.
Qed.

(** ** The reset pass, call by call *)

Section ResetPass.
Variable clock : nat → Z.

Lemma reset_if_needed_clock_reads e w :
  clock_reads (reset_if_needed clock e w).2 = S (clock_reads w).
Proof. unfold reset_if_needed. by destruct (should_reset _ _). Qed.




Lemma reset_all_idle es w :
  (∀ e n, e ∈ es → should_reset (clock n) (last_reset (attrs e)) = false) →
  reset_all clock es w
  = (es, {| table := table w;
            clock_reads := (clock_reads w + length es)%nat;
            calls := calls w |}).
Proof.
  revert w. induction es as [|e rest IH]; intros w Hidle.
  - simpl. destruct w. simpl. do 2 f_equal. lia.
  - rewrite reset_all_cons.
    assert (Hstep : reset_if_needed clock e w = (e, tick w)).
    { unfold reset_if_needed. rewrite Hidle; [done | by left]. }
    rewrite Hstep. simpl fst. simpl snd.
    rewrite IH by (intros e' n He'; apply Hidle; by right).
    simpl. do 2 f_equal. lia.
Qed.



(** When no row is due, whatever the clock reads, the pass changes nothing
    in the table, logs nothing but the scan, and hands the scanned items to
    the selection as they are. *)
Theorem reset_pass_idle (w : world) :
  (∀ n r c, table w !! r = Some c → should_reset (clock n) (last_reset c) = false) →
  after_resets clock w
  = (scan (table w),
     {| table := table w;
        clock_reads := (clock_reads w + size (table w))%nat;
        calls := calls w ++ [Scan] |}).
Proof.
  intros Hidle. unfold after_resets. rewrite reset_all_idle.
  - simpl. unfold scan at 2. by rewrite length_fmap, length_map_to_list.
  - intros e n He. apply elem_of_scan in He. by apply (Hidle n (region e)).
Qed.

(** A row that has just been reset is not reset again by a caller that
    reads it back while the clock is still in the same window (or behind). *)
Theorem no_second_reset_in_window (e : endpoint) (w : world) (c c1 : counters) :
  table w !! region e = Some c →
  should_reset (clock (clock_reads w)) (last_reset (attrs e)) = true →
  0 <= clock (clock_reads w) →
  window (clock (S (clock_reads w))) <= window (clock (clock_reads w)) →
  table (reset_if_needed clock e w).2 !! region e = Some c1 →
  reset_if_needed clock (Endpoint (region e) c1) (reset_if_needed clock e w).2
  = (Endpoint (region e) c1, tick (reset_if_needed clock e w).2).
Proof.
  intros Hc Hsr Hnow Hwin Hc1.
  rewrite (reset_if_needed_row clock e w c Hc), Hsr in Hc1. injection Hc1 as <-.
  unfold reset_if_needed at 1. rewrite reset_if_needed_clock_reads. simpl.
  assert (Hno : should_reset (clock (S (clock_reads w)))
                  (Some (clock (clock_reads w))) = false).
  { apply not_true_is_false. rewrite should_reset_spec.
    rewrite last_reset_window_nonneg by done. lia. }
  by rewrite Hno.
Qed.

End ResetPass.

Lemma two_regions_in_window n r c :
  table (idle two_regions) !! r = Some c →
  should_reset (clock_at 1700000050 n) (last_reset c) = false.
Proof.
  simpl. unfold two_regions. intros H.
  apply lookup_insert_Some in H as [[_ <-] | [_ H]]; [done |].
  by apply lookup_singleton_Some in H as [_ <-].
Qed.

Lemma reset_pass_idle_witness :
  (∀ n r c, table (idle two_regions) !! r = Some c →
            should_reset (clock_at 1700000050 n) (last_reset c) = false)
  ∧ after_resets (clock_at 1700000050) (idle two_regions)
    = (scan two_regions,
       {| table := two_regions;
          clock_reads := (0 + size two_regions)%nat;
          calls := [] ++ [Scan] |}).
Proof.
  split; [exact two_regions_in_window |].
  exact (reset_pass_idle (clock_at 1700000050) (idle two_regions) two_regions_in_window).
Defined.

Lemma no_second_reset_in_window_witness :
  table (idle same_row) !! region stale_item = Some (attrs stale_item)
  ∧ should_reset (clock_at 1700000110 0) (last_reset (attrs stale_item)) = true
  ∧ 0 <= clock_at 1700000110 0
  ∧ window (clock_at 1700000110 1) <= window (clock_at 1700000110 0)
  ∧ table (reset_if_needed (clock_at 1700000110) stale_item (idle same_row)).2
      !! region stale_item = Some (Counters 10 0 (Some 1700000110) 25)
  ∧ reset_if_needed (clock_at 1700000110)
      (Endpoint (region stale_item) (Counters 10 0 (Some 1700000110) 25))
      (reset_if_needed (clock_at 1700000110) stale_item (idle same_row)).2
    = (Endpoint (region stale_item) (Counters 10 0 (Some 1700000110) 25),
       tick (reset_if_needed (clock_at 1700000110) stale_item (idle same_row)).2).
Proof.
  assert (H3 : 0 <= clock_at 1700000110 0) by (unfold clock_at; lia).
  assert (H4 : window (clock_at 1700000110 1) <= window (clock_at 1700000110 0))
    by (unfold clock_at; lia).
  split; [reflexivity |]. split; [reflexivity |]. split; [exact H3 |].
  split; [exact H4 |]. split; [reflexivity |].
  exact (no_second_reset_in_window (clock_at 1700000110) stale_item (idle same_row)
           (attrs stale_item) (Counters 10 0 (Some 1700000110) 25)
           eq_refl eq_refl H3 H4 eq_refl).
Defined.

(** ** The handler, outcome by outcome *)

Section Outcomes.
Variable clock : nat → Z.
Variable bedrock : string → json → downstream.

(** The second [try] block answers 200 or 500 and lets nothing escape: the
    guard on the empty scan keeps [max] away from an empty list, and the row
    of the selected region is in the table when its usage is updated. *)
Lemma serve_outcome prompt w :
  ∃ b, (serve clock bedrock prompt w).1 = Response 200 b
       ∨ (serve clock bedrock prompt w).1 = Response 500 b.
Proof.
  destruct (decide (table w = ∅)) as [Hempty | Hne].
  - rewrite serve_empty by done. eexists. by right.
  - destruct (serve_selected clock bedrock prompt w Hne) as (sel & c1 & _ & _ & _ & ->).
    cbv zeta. destruct (bedrock (region sel) prompt); eexists; simpl; eauto.
Qed.



(** Status 400 is the answer to the requests that [rejected] describes (no
    body key, text on which [json.loads] raises [ValueError], an object
    whose prompt is missing or falsy) and to no other. *)
Theorem status_400_iff_rejected (ev : event) (w : world) :
  (∃ b, (lambda_handler clock bedrock ev w).1 = Response 400 b) ↔ rejected ev.
Proof.
  assert (Hyes : ∀ b0, (∃ b, Response 400 b0 = Response 400 b) ↔ True).
  { intros b0. split; [done | by eexists]. }
  assert (Hno : ∀ x : exn, (∃ b, Uncaught x = Response 400 b) ↔ False).
  { intros x. split; [by intros [? ?] | done]. }
  destruct ev as [| | | | |v]; simpl; try (apply Hyes || apply Hno).
  destruct v as [| | | | |fields]; simpl; try apply Hno.
  destruct (fields !! "prompt") as [p|]; simpl; [|apply Hyes].
  destruct (truthy p); simpl.
  - split; [|done]. intros [b Hb].
    destruct (serve_outcome p w) as [b' [Hb' | Hb']]; congruence.
  - split; [done | by eexists].
Qed.


End Outcomes.


(** ** What a run does to the table *)

Section Runs.
Variable clock : nat → Z.
Variable bedrock : string → json → downstream.

(** A run neither adds nor removes a region and never changes a
    [total_quota]; [request_count] stays or goes up by one, and
    [used_quota] ends as it was or at 0, in either case possibly one
    higher. *)
Theorem lambda_handler_keeps_pool (ev : event) (w : world) :
  dom (table (lambda_handler clock bedrock ev w).2) = dom (table w)
  ∧ ∀ r c, table w !! r = Some c →
      ∃ c', table (lambda_handler clock bedrock ev w).2 !! r = Some c'
            ∧ total_quota c' = total_quota c
            ∧ (request_count c' = request_count c
               ∨ request_count c' = request_count c + 1)
            ∧ (used_quota c' = used_quota c ∨ used_quota c' = used_quota c + 1
               ∨ used_quota c' = 0 ∨ used_quota c' = 1).
Proof.
  split.
  - apply set_eq. intros r. rewrite !elem_of_dom.
    pose proof (lambda_handler_rows clock bedrock ev w r) as Hrows.
    destruct (table w !! r) as [c|].
    + destruct Hrows as (c1 & _ & [-> | ->]); split; by eauto.
    + rewrite Hrows. done.
  - intros r c Hc. pose proof (lambda_handler_rows clock bedrock ev w r) as Hrows.
    rewrite Hc in Hrows. destruct Hrows as (c1 & Hreset & Hfinal).
    destruct (row_reset_fields c c1 Hreset) as [Htot Hcnt].
    destruct Hfinal as [Hf | Hf]; rewrite Hf; eexists; (split; [done |]); simpl;
      rewrite ?Htot, ?Hcnt; destruct Hreset; simpl; auto with lia.
Qed.

(** How a run that ends with status 200 came about. *)
Lemma lambda_handler_200 ev w b w' :
  lambda_handler clock bedrock ev w = (Response 200 b, w') →
  table w ≠ ∅
  ∧ ∃ fields sel result,
      ev = BodyJson (JObj fields)
      ∧ truthy (default JNull (fields !! "prompt")) = true
      ∧ select_best_endpoint (after_resets clock w).1 = inr sel
      ∧ bedrock (region sel) (default JNull (fields !! "prompt")) = InvocationOk result
      ∧ b = RegionResponse (region sel) result.
Proof.
  intros Hrun.
  destruct ev as [| | | | |v]; try discriminate.
  destruct v as [| | | | |fields]; try discriminate.
  unfold lambda_handler in Hrun.
  destruct (truthy (default JNull (fields !! "prompt"))) eqn:Hp; [|discriminate].
  simpl in Hrun.
  destruct (decide (table w = ∅)) as [Hempty | Hne].
  { rewrite serve_empty in Hrun by done. discriminate. }
  split; [done |].
  destruct (serve_selected clock bedrock (default JNull (fields !! "prompt")) w Hne)
    as (sel & c1 & Hsel & _ & _ & Heq).
  rewrite Heq in Hrun. cbv zeta in Hrun.
  destruct (bedrock (region sel) _) as [msg|msg|result] eqn:Hb; try discriminate.
  injection Hrun as <- _. by exists fields, sel, result.
Qed.


(** The region a successful run returns is one whose row, as the reset pass
    left the table, has the largest headroom on record. *)
Theorem returned_region_has_most_headroom
    (ev : event) (w w' : world) (r : string) (result : json) :
  lambda_handler clock bedrock ev w = (Response 200 (RegionResponse r result), w') →
  ∃ c1, table (after_resets clock w).2 !! r = Some c1
        ∧ ∀ r' c', table (after_resets clock w).2 !! r' = Some c' →
            total_quota c' - used_quota c' <= total_quota c1 - used_quota c1.
Proof.
  intros Hrun.
  destruct (lambda_handler_200 _ _ _ _ Hrun)
    as (Hne & fields & sel & result' & _ & _ & Hsel & _ & [= -> _]).
  assert (Hin : sel ∈ (after_resets clock w).1).
  { destruct (select_best_endpoint_elem _ ltac:(by intros E; rewrite E in Hsel))
      as (sel' & Hsel' & Hin'). congruence. }
  destruct (after_resets_headroom clock w sel Hin) as (c1 & Hc1 & Hhead).
  exists c1. split; [done |]. intros r' c' Hc'. rewrite <- Hhead.
  assert (Hsome : is_Some (table w !! r')).
  { destruct (table w !! r') eqn:Hr'; [by eexists |].
    pose proof (reset_all_absent clock (scan (table w)) (log Scan w) r' Hr') as Habs.
    fold (after_resets clock w) in Habs. congruence. }
  destruct Hsome as [c0 Hc0].
  assert (Hreg : r' ∈ region <$> (after_resets clock w).1).
  { unfold after_resets. rewrite reset_all_regions.
    apply list_elem_of_fmap. exists (Endpoint r' c0). split; [done |].
    by apply elem_of_scan. }
  apply list_elem_of_fmap in Hreg as (e' & -> & He').
  destruct (after_resets_headroom clock w e' He') as (c'' & Hc'' & Hhead').
  assert (c'' = c') as -> by congruence.
  rewrite <- Hhead'. by apply (select_best_endpoint_max _ _ _ Hsel).
Qed.

End Runs.


Lemma status_400_iff_rejected_witness :
  rejected (BodyJson (JObj {[ "prompt" := JInt 0 ]}))
  ∧ ∃ b, (lambda_handler (clock_at 1700000050) bedrock_up
            (BodyJson (JObj {[ "prompt" := JInt 0 ]})) (idle two_regions)).1
         = Response 400 b.
Proof.
  assert (H : rejected (BodyJson (JObj {[ "prompt" := JInt 0 ]}))) by reflexivity.
  split; [exact H |].
  exact (proj2 (status_400_iff_rejected (clock_at 1700000050) bedrock_up
                  (BodyJson (JObj {[ "prompt" := JInt 0 ]})) (idle two_regions)) H).
Defined.


Lemma returned_region_has_most_headroom_witness :
  lambda_handler (clock_at 1700000050) bedrock_up (ask "capital of India?")
    (idle two_regions)
  = (Response 200 (RegionResponse "us-west-2" (JStr "New Delhi")),
     (lambda_handler (clock_at 1700000050) bedrock_up (ask "capital of India?")
        (idle two_regions)).2)
  ∧ ∃ c1, table (after_resets (clock_at 1700000050) (idle two_regions)).2 !! "us-west-2"
          = Some c1
          ∧ ∀ r' c', table (after_resets (clock_at 1700000050) (idle two_regions)).2 !! r'
                     = Some c' →
              total_quota c' - used_quota c' <= total_quota c1 - used_quota c1.
Proof.
  assert (Hrun :
    lambda_handler (clock_at 1700000050) bedrock_up (ask "capital of India?")
      (idle two_regions)
    = (Response 200 (RegionResponse "us-west-2" (JStr "New Delhi")),
       (lambda_handler (clock_at 1700000050) bedrock_up (ask "capital of India?")
          (idle two_regions)).2))
    by (vm_compute; reflexivity).
  split; [exact Hrun |].
  exact (returned_region_has_most_headroom (clock_at 1700000050) bedrock_up _ _ _ _ _ Hrun).
Defined.
